(** * DNAMethylationAnalyzer: a shallow embedding of
      [biolearn/DNAm_Age_Relationships.py]

    The analyzer object owns two pandas tables, [self.methylation_data]
    and [self.metadata], and draws matplotlib figures.  Methods are
    embedded in a state-and-exception monad over those three things.

    Conventions.
    - A Python float is a rational or NaN ([float := option Q]); rounding
      is not modelled, arithmetic is exact.
    - A raised exception is recorded by its class name.
    - [scipy], [sklearn] and number formatting are parameters of the
      development (Section [Methods]); pandas operations used by the class
      are written out. *)

From Stdlib Require Import List String ZArith QArith Lqa Lia Bool Arith.
Import ListNotations.

Set Implicit Arguments.

(** ** Floats *)

Definition float := option Q.
Definition NaN : float := None.

(** [x < y] on Python floats: false as soon as one side is NaN. *)
Definition flt (x y : float) : bool :=
  match x, y with
  | Some a, Some b => negb (Qle_bool b a)
  | _, _ => false
  end.

(** [x <= y] on Python floats. *)
Definition fle (x y : float) : bool :=
  match x, y with
  | Some a, Some b => Qle_bool a b
  | _, _ => false
  end.

Definition isnan (x : float) : bool :=
  match x with Some _ => false | None => true end.

(** [Series.dropna()] on a numeric series: the available values, in order. *)
Fixpoint dropna (xs : list float) : list Q :=
  match xs with
  | [] => []
  | Some v :: rest => v :: dropna rest
  | None :: rest => dropna rest
  end.

Definition Qsum (xs : list Q) : Q := fold_right Qplus 0 xs.

Definition count (xs : list Q) : Q := inject_Z (Z.of_nat (List.length xs)).

(** pandas [mean] with [skipna=True]: NaN when nothing is available. *)
Definition nanmean (xs : list float) : float :=
  match dropna xs with
  | [] => NaN
  | v :: vs => Some (Qsum (v :: vs) / count (v :: vs))
  end.

Definition sqdev (avg : Q) (xs : list Q) : list Q :=
  map (fun x => (avg - x) * (avg - x)) xs.

(** pandas [var] with [skipna=True] and the default [ddof=1]: the sum of
    squared deviations from the mean of the available values over
    [count - 1]; NaN when [count <= ddof]. *)
Definition nanvar (xs : list float) : float :=
  match dropna xs with
  | [] => NaN
  | [_] => NaN
  | vs => let avg := Qsum vs / count vs in
          Some (Qsum (sqdev avg vs) / (count vs - 1))
  end.

(** ** Exceptions and the method monad *)

Record exception := PyExc { exc_class : string }.

Definition KeyError : exception := PyExc "KeyError".
Definition ValueError : exception := PyExc "ValueError".

Inductive result (A : Type) : Type :=
| Ok (a : A)
| Raise (e : exception).
Arguments Ok {A} a.
Arguments Raise {A} e.

Definition rbind {A B} (r : result A) (k : A -> result B) : result B :=
  match r with
  | Ok a => k a
  | Raise e => Raise e
  end.

(** ** The two tables *)

(** One row of the methylation matrix: the [cpgSite] cell (NaN when the
    identifier cell is empty) and one float per sample column. *)
Record Row := mkRow { cpgSite : option string; cells : list float }.

(** The methylation DataFrame: first column [cpgSite], then the sample
    columns.  Rows are kept in index order. *)
Record MethylationMatrix := mkMatrix {
  sample_columns : list string;
  rows : list Row
}.

(** One row of the metadata DataFrame. [categories] is aligned with the
    table's [fields]; a missing categorical cell is [None]. *)
Record MetaRow := mkMetaRow {
  SampleID : string;
  Age : float;
  categories : list (option string)
}.

(** The metadata DataFrame: columns [SampleID], [Age] and the categorical
    [fields]. *)
Record Metadata := mkMetadata {
  fields : list string;
  mrows : list MetaRow
}.

(** A matplotlib figure as shown: its title, the scatter of observed
    points, and the fitted curve with its legend label when one is
    plotted. *)
Record Figure := mkFigure {
  title : string;
  scatter : list (float * float);
  fit_label : string;
  fit_curve : list (float * float)
}.

(** The analyzer's fields together with the figures shown so far. *)
Record World := mkWorld {
  methylation_data : MethylationMatrix;
  metadata : Metadata;
  figures : list Figure
}.

Definition M (A : Type) : Type := World -> result A * World.

Definition ret {A} (a : A) : M A := fun w => (Ok a, w).

Definition bind {A B} (m : M A) (k : A -> M B) : M B :=
  fun w => match m w with
           | (Ok a, w') => k a w'
           | (Raise e, w') => (Raise e, w')
           end.

Definition lift {A} (r : result A) : M A := fun w => (r, w).

Definition get_methylation_data : M MethylationMatrix :=
  fun w => (Ok (methylation_data w), w).

Definition get_metadata : M Metadata :=
  fun w => (Ok (metadata w), w).

Definition set_methylation_data (m : MethylationMatrix) : M unit :=
  fun w => (Ok tt, mkWorld m (metadata w) (figures w)).

(** [plt.show()] of a finished figure. *)
Definition plt_show (f : Figure) : M unit :=
  fun w => (Ok tt, mkWorld (methylation_data w) (metadata w) (figures w ++ [f])).

Declare Scope py_scope.
Delimit Scope py_scope with py.
Notation "x <- m ;; k" := (bind m (fun x => k))
  (at level 61, m at next level, right associativity) : py_scope.
Notation "m ;;; k" := (bind m (fun _ => k))
  (at level 61, right associativity) : py_scope.

(** ** pandas operations used by the class *)

Definition all_nan (cs : list float) : bool := forallb isnan cs.

(** A row all of whose cells are NaN, the [cpgSite] cell included. *)
Definition row_all_nan (r : Row) : bool :=
  match cpgSite r with
  | None => all_nan (cells r)
  | Some _ => false
  end.

(** [DataFrame.dropna(how='all')]: no [subset] is given, so every column
    of the frame counts, the identifier column too. *)
Definition DataFrame_dropna_all (m : MethylationMatrix) : MethylationMatrix :=
  mkMatrix (sample_columns m) (filter (fun r => negb (row_all_nan r)) (rows m)).

Definition column (j : nat) (rs : list Row) : list float :=
  map (fun r => nth j (cells r) NaN) rs.

(** [DataFrame.mean()]: the default axis is 0, one mean per column, NaN
    skipped.  The [cpgSite] column holds strings and has no mean; the
    entries are those of the sample columns, in column order.  (Releases
    of pandas that refuse a string column here raise [TypeError] instead;
    the embedding follows the releases in which the call returns.) *)
Definition DataFrame_mean (m : MethylationMatrix) : list float :=
  map (fun j => nanmean (column j (rows m)))
      (seq 0 (List.length (sample_columns m))).

(** Filling one row from a series of per-column values: a NaN cell takes
    the value listed for its column, other cells stay. *)
Fixpoint fillna_cells (cs : list float) (values : list float) : list float :=
  match cs, values with
  | c :: cs', v :: values' =>
      (match c with Some _ => c | None => v end) :: fillna_cells cs' values'
  | _, _ => cs
  end.

(** [DataFrame.fillna(series)]: column-wise fill by column label.  The
    series has no entry for [cpgSite], which is left as it is. *)
Definition DataFrame_fillna (values : list float) (m : MethylationMatrix)
  : MethylationMatrix :=
  mkMatrix (sample_columns m)
           (map (fun r => mkRow (cpgSite r) (fillna_cells (cells r) values))
                (rows m)).

(** [df.iloc[:, 1:].var(axis=1)]: one variance per row over the sample
    columns. *)
Definition row_variances (m : MethylationMatrix) : list float :=
  map (fun r => nanvar (cells r)) (rows m).

(** Boolean-mask row selection [df[mask]]. *)
Fixpoint mask_select {A} (xs : list A) (mask : list bool) : list A :=
  match xs, mask with
  | x :: xs', b :: mask' =>
      if b then x :: mask_select xs' mask' else mask_select xs' mask'
  | _, _ => []
  end.

Fixpoint index_of (s : string) (l : list string) : option nat :=
  match l with
  | [] => None
  | x :: l' => if String.eqb s x then Some O
               else option_map S (index_of s l')
  end.

(** ** The methods that touch only the matrix *)

Local Open Scope py_scope.

(** [preprocess_data]: both pandas calls are [inplace=True]; the means
    are computed on the frame after the drop. *)
Definition preprocess_data : M unit :=
  m <- get_methylation_data ;;
  set_methylation_data (DataFrame_dropna_all m) ;;;
  m' <- get_methylation_data ;;
  let means := DataFrame_mean m' in
  set_methylation_data (DataFrame_fillna means m').

(** [identify_stable_cpg_sites(threshold)]. *)
Definition identify_stable_cpg_sites (threshold : float)
  : M (list (option string)) :=
  m <- get_methylation_data ;;
  let variances := row_variances m in
  let mask := map (fun v => flt v threshold) variances in
  let stable_cpg_sites := map cpgSite (mask_select (rows m) mask) in
  ret stable_cpg_sites.

(** ** Metadata selection *)

(** [self.metadata[group_field] == value], for a string [value]: the
    column is looked up by label ([KeyError] when absent) and compared
    cell by cell.  The numeric [Age] column never equals a string; a
    missing categorical cell equals nothing. *)
Definition column_equals (md : Metadata) (group_field value : string)
  : result (list bool) :=
  if String.eqb group_field "SampleID" then
    Ok (map (fun r => String.eqb (SampleID r) value) (mrows md))
  else if String.eqb group_field "Age" then
    Ok (map (fun _ => false) (mrows md))
  else
    match index_of group_field (fields md) with
    | Some j =>
        Ok (map (fun r => match nth j (categories r) None with
                          | Some v => String.eqb v value
                          | None => false
                          end) (mrows md))
    | None => Raise KeyError
    end.

(** [self.metadata[self.metadata[group_field] == value]['SampleID'].tolist()] *)
Definition group_samples (md : Metadata) (group_field value : string)
  : result (list string) :=
  rbind (column_equals md group_field value) (fun mask =>
  Ok (map SampleID (mask_select (mrows md) mask))).

(** [row[labels]] for a list of sample labels: the cells under those
    labels, in the order asked; [KeyError] when a label is not a column.
    Labels are sample identifiers, so the lookup runs over the sample
    columns. *)
Fixpoint row_getitem (cols : list string) (row : Row) (labels : list string)
  : result (list float) :=
  match labels with
  | [] => Ok []
  | l :: ls =>
      match index_of l cols with
      | Some j =>
          rbind (row_getitem cols row ls) (fun rest =>
          Ok (nth j (cells row) NaN :: rest))
      | None => Raise KeyError
      end
  end.

(** [pd.merge(cpg_data.reset_index(), self.metadata, left_on='index',
    right_on='SampleID')] read off as the pairs ([Age], level): an inner
    join that keeps the order of the left keys (the sample columns) and,
    for one key, the order of the matching metadata rows. *)
Definition merge_with_metadata (cols : list string) (levels : list float)
           (md : Metadata) : list (float * float) :=
  flat_map (fun cv : string * float =>
              map (fun r => (Age r, snd cv))
                  (filter (fun r => String.eqb (SampleID r) (fst cv)) (mrows md)))
           (combine cols levels).

(** [self.methylation_data.set_index('cpgSite').loc[cpg_site]] followed
    by the merge and the two column reads of the plotting methods.
    - No row carries the label: [.loc] raises [KeyError].
    - Several rows carry it: [.loc] yields a frame, whose [reset_index]
      has no ['index'] column to merge on: [KeyError].
    - The label is ['index']: [reset_index] cannot insert its column:
      [ValueError].
    - The label is also a metadata column: the merge renames both
      columns with suffixes and the read by label raises [KeyError]. *)
Definition probe_against_age (m : MethylationMatrix) (md : Metadata)
           (cpg_site : string) : result (list float * list float) :=
  match filter (fun r => match cpgSite r with
                         | Some s => String.eqb s cpg_site
                         | None => false
                         end) (rows m) with
  | [] => Raise KeyError
  | [r] =>
      if String.eqb cpg_site "index" then Raise ValueError
      else if existsb (String.eqb cpg_site) ("SampleID" :: "Age" :: fields md)%string
      then Raise KeyError
      else
        let merged_data := merge_with_metadata (sample_columns m) (cells r) md in
        Ok (map fst merged_data, map snd merged_data)
  | _ :: _ :: _ => Raise KeyError
  end.

(** [PolynomialFeatures(degree=2).fit_transform(ages)] on a one-column
    input: the rows [1, a, a^2].  Input validation rejects NaN and an
    empty input with [ValueError]. *)
Definition PolynomialFeatures_fit_transform (ages : list float)
  : result (list (list float)) :=
  match ages with
  | [] => Raise ValueError
  | _ => if existsb isnan ages then Raise ValueError
         else Ok (map (fun a => match a with
                                | Some q => [Some 1; Some q; Some (q * q)]
                                | None => []
                                end) ages)
  end.

(** An insertion-ordered dict with string keys: assigning to a present
    key replaces its value in place. *)
Fixpoint dict_set {V} (d : list (string * V)) (k : string) (v : V)
  : list (string * V) :=
  match d with
  | [] => [(k, v)]
  | (k', v') :: d' =>
      if String.eqb k k' then (k, v) :: d' else (k', v') :: dict_set d' k v
  end.

(** ** The methods that call scipy and sklearn *)

Section Methods.

(** [scipy.stats.ttest_ind(a, b, equal_var=False)]: the p-value. *)
Variable ttest_ind : list Q -> list Q -> float.

(** [LinearRegression().fit(X, y).predict(X)]; validation failures
    raise. *)
Variable LinearRegression_fit_predict :
  list (list float) -> list float -> result (list float).

(** [scipy.stats.pearsonr(x, y)]: the coefficient; short input raises. *)
Variable pearsonr : list float -> list float -> result float.

(** [f'{corr:.2f}'] *)
Variable format_2f : float -> string.

(** The [for index, row in self.methylation_data.iterrows()] loop of
    [identify_significant_cpg_sites], with the list being appended to
    as accumulator. *)
Fixpoint significant_loop (cols : list string)
         (group1_samples group2_samples : list string)
         (p_value_threshold : float)
         (rs : list Row) (significant_cpg_sites : list (option string))
  : result (list (option string)) :=
  match rs with
  | [] => Ok significant_cpg_sites
  | row :: rest =>
      let cpg_site := cpgSite row in
      rbind (row_getitem cols row group1_samples) (fun g1 =>
      let group1_values := dropna g1 in
      rbind (row_getitem cols row group2_samples) (fun g2 =>
      let group2_values := dropna g2 in
      let p_value := ttest_ind group1_values group2_values in
      significant_loop cols group1_samples group2_samples p_value_threshold rest
        (if flt p_value p_value_threshold
         then significant_cpg_sites ++ [cpg_site]
         else significant_cpg_sites)))
  end.

(** [identify_significant_cpg_sites(group_field, group1, group2,
    p_value_threshold)]. *)
Definition identify_significant_cpg_sites
           (group_field group1 group2 : string) (p_value_threshold : float)
  : M (list (option string)) :=
  md <- get_metadata ;;
  group1_samples <- lift (group_samples md group_field group1) ;;
  group2_samples <- lift (group_samples md group_field group2) ;;
  m <- get_methylation_data ;;
  lift (significant_loop (sample_columns m) group1_samples group2_samples
                         p_value_threshold (rows m) []).

(** [plot_cpg_against_age(cpg_site)]: a linear fit and its figure, then
    a degree-2 fit and its figure. *)
Definition plot_cpg_against_age (cpg_site : string) : M unit :=
  m <- get_methylation_data ;;
  md <- get_metadata ;;
  data <- lift (probe_against_age m md cpg_site) ;;
  let ages := fst data in
  let methylation_levels := snd data in
  linear_pred <- lift (LinearRegression_fit_predict
                         (map (fun a => [a]) ages) methylation_levels) ;;
  plt_show (mkFigure
              ("CpG Site " ++ cpg_site ++ " Methylation vs Age (Linear Relationship)")
              (combine ages methylation_levels)
              "Linear Fit"
              (combine ages linear_pred)) ;;;
  ages_poly <- lift (PolynomialFeatures_fit_transform ages) ;;
  poly_pred <- lift (LinearRegression_fit_predict ages_poly methylation_levels) ;;
  plt_show (mkFigure
              ("CpG Site " ++ cpg_site ++ " Methylation vs Age (Non-Linear Relationship)")
              (combine ages methylation_levels)
              "Polynomial Fit (Degree 2)"
              (combine ages poly_pred)).

(** The loop of [visualize_correlation_with_age] over the requested
    probes, threading the [correlations] dict. *)
Fixpoint correlation_loop (cpg_sites : list string)
         (correlations : list (string * float))
  : M (list (string * float)) :=
  match cpg_sites with
  | [] => ret correlations
  | cpg_site :: rest =>
      m <- get_methylation_data ;;
      md <- get_metadata ;;
      data <- lift (probe_against_age m md cpg_site) ;;
      let ages := fst data in
      let methylation_levels := snd data in
      corr <- lift (pearsonr ages methylation_levels) ;;
      let correlations' := dict_set correlations cpg_site corr in
      plt_show (mkFigure
                  ("CpG Site " ++ cpg_site ++ " Methylation vs Age (Correlation: "
                     ++ format_2f corr ++ ")")
                  (combine ages methylation_levels)
                  EmptyString
                  []) ;;;
      correlation_loop rest correlations'
  end.

(** [visualize_correlation_with_age(cpg_sites)]. *)
Definition visualize_correlation_with_age (cpg_sites : list string)
  : M (list (string * float)) :=
  correlation_loop cpg_sites [].

End Methods.

(** ** Vocabulary of the statements *)

(** The frame after [preprocess_data], as a function of the frame before. *)
Definition preprocessed (m : MethylationMatrix) : MethylationMatrix :=
  DataFrame_fillna (DataFrame_mean (DataFrame_dropna_all m))
                   (DataFrame_dropna_all m).

(** The two stored tables of a world. *)
Definition tables (w : World) : MethylationMatrix * Metadata :=
  (methylation_data w, metadata w).

(** A computation that leaves both stored tables as they were, whatever
    it returns or raises. *)
Definition preserves_tables {A} (c : M A) : Prop :=
  forall w, tables (snd (c w)) = tables w.

(** The order-preserving sub-list relation. *)
Inductive subseq {A} : list A -> list A -> Prop :=
| subseq_nil : subseq [] []
| subseq_skip : forall x l1 l2, subseq l1 l2 -> subseq l1 (x :: l2)
| subseq_keep : forall x l1 l2, subseq l1 l2 -> subseq (x :: l1) (x :: l2).


(** The cell of a row under a sample label (NaN for an unknown label). *)
Definition cell_at (cols : list string) (r : Row) (label : string) : float :=
  match index_of label cols with
  | Some j => nth j (cells r) NaN
  | None => NaN
  end.

(** The available values of a row over a group of samples. *)
Definition group_values (cols : list string) (r : Row) (samples : list string)
  : list Q :=
  dropna (map (cell_at cols r) samples).

(** The row's p-value over the two groups is strictly below the
    threshold. *)
Definition significant (ttest_ind : list Q -> list Q -> float)
           (cols : list string) (s1 s2 : list string)
           (threshold : float) (r : Row) : bool :=
  flt (ttest_ind (group_values cols r s1) (group_values cols r s2)) threshold.

(** No row of the matrix carries the probe identifier. *)
Definition probe_absent (m : MethylationMatrix) (cpg_site : string) : Prop :=
  forall r, In r (rows m) -> cpgSite r <> Some cpg_site.


(** ** Concrete inputs *)

(** Stand-ins for the library parameters, to run the methods on concrete
    inputs.  [small_sample_ttest] is NaN on small samples as the library
    is; beyond that it only tells equal means (p-value 1) from different
    ones (p-value 0). *)
Definition small_sample_ttest (a b : list Q) : float :=
  match a, b with
  | _ :: _ :: _, _ :: _ :: _ =>
      if Qeq_bool (Qsum a / count a) (Qsum b / count b) then Some 1 else Some 0
  | _, _ => NaN
  end.

Definition interpolating_fit (X : list (list float)) (y : list float)
  : result (list float) := Ok y.

Definition perfect_pearsonr (x y : list float) : result float := Ok (Some 1).

Definition plain_format (x : float) : string := "1.00".

(** Two probes over two samples; [cg1] lacks its second value. *)
Definition matrix_with_gap : MethylationMatrix :=
  mkMatrix ["S1"; "S2"]%string
           [ mkRow (Some "cg1"%string) [Some 0.2; NaN];
             mkRow (Some "cg2"%string) [Some 0.4; Some 0.8] ].

(** Two probes over two samples; [cg1] has no data at all. *)
Definition matrix_with_empty_probe : MethylationMatrix :=
  mkMatrix ["S1"; "S2"]%string
           [ mkRow (Some "cg1"%string) [NaN; NaN];
             mkRow (Some "cg2"%string) [Some 0.4; Some 0.8] ].

(** Four samples, two controls and two with COVID. *)
Definition four_samples : Metadata :=
  mkMetadata ["Disease State"]%string
             [ mkMetaRow "S1" (Some 30) [Some "Control"%string];
               mkMetaRow "S2" (Some 40) [Some "Control"%string];
               mkMetaRow "S3" (Some 50) [Some "COVID"%string];
               mkMetaRow "S4" (Some 60) [Some "COVID"%string] ].

(** Three probes over the four samples: one constant, one that differs
    between the groups, one with a single value in the COVID group. *)
Definition three_probes : MethylationMatrix :=
  mkMatrix ["S1"; "S2"; "S3"; "S4"]%string
           [ mkRow (Some "cg_flat"%string) [Some 0.5; Some 0.5; Some 0.5; Some 0.5];
             mkRow (Some "cg_diff"%string) [Some 0.1; Some 0.1; Some 0.9; Some 0.9];
             mkRow (Some "cg_thin"%string) [Some 0.1; Some 0.2; NaN; Some 0.9] ].

Definition loaded : World := mkWorld three_probes four_samples [].

(** ** Vocabulary of the further properties *)

(** Equality of Python floats up to the value of the rational. *)
Definition feq (x y : float) : Prop :=
  match x, y with
  | Some a, Some b => a == b
  | None, None => True
  | _, _ => False
  end.



(** What one row looks like after [preprocess_data]: same identifier,
    same width, and every value that was there still there. *)
Definition imputed_from (r r' : Row) : Prop :=
  cpgSite r' = cpgSite r /\
  List.length (cells r') = List.length (cells r) /\
  forall j q, nth j (cells r) NaN = Some q -> nth j (cells r') NaN = Some q.

(** A two-sided p-value does not depend on the order of the samples. *)
Definition symmetric_pvalue (ttest_ind : list Q -> list Q -> float) : Prop :=
  forall a b, ttest_ind a b = ttest_ind b a.

(** A matrix in which sample [S2] was never measured. *)
Definition matrix_with_dead_column : MethylationMatrix :=
  mkMatrix ["S1"; "S2"]%string
           [ mkRow (Some "cg1"%string) [Some 0.2; NaN];
             mkRow (Some "cg2"%string) [Some 0.4; NaN] ].

(** Every label of the list names a sample column. *)
Definition known_labels (cols labels : list string) : bool :=
  forallb (fun l => match index_of l cols with Some _ => true | None => false end)
          labels.

(** Only two of the four samples were measured. *)
Definition half_measured : World := mkWorld matrix_with_gap four_samples [].

(** A header and no probe. *)
Definition no_probes : World :=
  mkWorld (mkMatrix ["S1"; "S2"]%string []) four_samples [].

(** The row carries the probe identifier. *)
Definition carries (cpg_site : string) (r : Row) : bool :=
  match cpgSite r with
  | Some s => String.eqb s cpg_site
  | None => false
  end.

(** The age the metadata records for a sample (NaN for an unknown one). *)
Definition age_of (md : Metadata) (sample : string) : float :=
  match find (fun r => String.eqb (SampleID r) sample) (mrows md) with
  | Some r => Age r
  | None => NaN
  end.

(** The figure [visualize_correlation_with_age] shows for one probe. *)
Definition correlation_figure (format_2f : float -> string) (cpg_site : string)
           (ages methylation_levels : list float) (corr : float) : Figure :=
  mkFigure ("CpG Site " ++ cpg_site ++ " Methylation vs Age (Correlation: "
              ++ format_2f corr ++ ")")
           (combine ages methylation_levels)
           EmptyString
           [].

(** * Properties *)

Unset Implicit Arguments.

(** ** Lists and masks *)

Lemma mask_select_map : forall A (f : A -> bool) (xs : list A),
  mask_select xs (map f xs) = filter f xs.
Proof.
  induction xs as [|x xs IH]; simpl; [reflexivity|].
  rewrite IH. reflexivity.
Qed.

Lemma filter_keeps_all : forall A (f : A -> bool) (xs : list A),
  (forall x, In x xs -> f x = true) -> filter f xs = xs.
Proof.
  induction xs as [|x xs IH]; simpl; intros H; [reflexivity|].
  rewrite (H x (or_introl eq_refl)). f_equal. apply IH.
  intros y Hy. apply H. now right.
Qed.

Lemma subseq_filter_imp : forall A B (g : A -> B) (p q : A -> bool) (xs : list A),
  (forall x, In x xs -> p x = true -> q x = true) ->
  subseq (map g (filter p xs)) (map g (filter q xs)).
Proof.
  induction xs as [|x xs IH]; simpl; intros H; [constructor|].
  assert (IH' : subseq (map g (filter p xs)) (map g (filter q xs))).
  { apply IH. intros y Hy. apply H. now right. }
  destruct (p x) eqn:Ep.
  - rewrite (H x (or_introl eq_refl) Ep). simpl. now constructor.
  - destruct (q x); simpl; [now constructor | assumption].
Qed.

Lemma subseq_In : forall A (l1 l2 : list A) (x : A),
  subseq l1 l2 -> In x l1 -> In x l2.
Proof.
  induction 1; simpl; intros Hin; tauto.
Qed.

(** ** Floats and the two statistics *)

Lemma flt_spec : forall x y,
  flt x y = true <-> exists a b, x = Some a /\ y = Some b /\ a < b.
Proof.
  intros [a|] [b|]; simpl; split; try discriminate;
    try (intros (a' & b' & Ha & Hb & _); discriminate).
  - intros H. exists a, b. repeat split.
    apply negb_true_iff in H. apply Qnot_le_lt. intros Hle.
    apply Qle_bool_iff in Hle. congruence.
  - intros (a' & b' & Ha & Hb & Hlt). inversion Ha; inversion Hb; subst.
    apply negb_true_iff. destruct (Qle_bool b' a') eqn:E; [|reflexivity].
    apply Qle_bool_iff in E. exfalso. apply (Qlt_not_le _ _ Hlt E).
Qed.

Lemma fle_spec : forall x y,
  fle x y = true <-> exists a b, x = Some a /\ y = Some b /\ a <= b.
Proof.
  intros [a|] [b|]; simpl; split; try discriminate;
    try (intros (a' & b' & Ha & Hb & _); discriminate).
  - intros H. exists a, b. repeat split. now apply Qle_bool_iff.
  - intros (a' & b' & Ha & Hb & Hle). inversion Ha; inversion Hb; subst.
    now apply Qle_bool_iff.
Qed.

Lemma flt_fle_trans : forall x y z,
  flt x y = true -> fle y z = true -> flt x z = true.
Proof.
  intros x y z Hxy Hyz.
  apply flt_spec in Hxy. destruct Hxy as (a & b & -> & -> & Hab).
  apply fle_spec in Hyz. destruct Hyz as (b' & c & Hb & -> & Hbc).
  inversion Hb; subst b'.
  apply flt_spec. exists a, c. repeat split. eapply Qlt_le_trans; eassumption.
Qed.

Lemma Qsquare_nonneg : forall y : Q, 0 <= y * y.
Proof. intros y. nra. Qed.

Lemma Qsum_sqdev_nonneg : forall avg xs, 0 <= Qsum (sqdev avg xs).
Proof.
  induction xs as [|x xs IH].
  - apply Qle_refl.
  - change (0 <= (avg - x) * (avg - x) + Qsum (sqdev avg xs)).
    pose proof (Qsquare_nonneg (avg - x)). lra.
Qed.

Lemma count_cons : forall x xs, count (x :: xs) == count xs + 1.
Proof.
  intros x xs. unfold count. simpl List.length.
  rewrite Nat2Z.inj_succ, <- Z.add_1_r, inject_Z_plus. reflexivity.
Qed.

Lemma count_nonneg : forall xs, 0 <= count xs.
Proof.
  intros xs. unfold count. change 0 with (inject_Z 0).
  rewrite <- Zle_Qle. lia.
Qed.

(** A defined variance is never negative. *)
Lemma nanvar_nonneg : forall xs v, nanvar xs = Some v -> 0 <= v.
Proof.
  intros xs v. unfold nanvar.
  destruct (dropna xs) as [|a [|b vs]]; try discriminate.
  cbv beta iota zeta.
  assert (Hc : 0 < count (a :: b :: vs) - 1).
  { pose proof (count_cons a (b :: vs)) as H1.
    pose proof (count_cons b vs) as H2.
    pose proof (count_nonneg vs). lra. }
  generalize dependent (a :: b :: vs). intros l Hc H. injection H as <-.
  apply Qle_shift_div_l.
  - exact Hc.
  - rewrite Qmult_0_l. apply Qsum_sqdev_nonneg.
Qed.







(** ** Filling and column means *)

Lemma dropna_nil_iff : forall xs,
  dropna xs = [] <-> forall x, In x xs -> x = NaN.
Proof.
  induction xs as [|[v|] xs IH]; simpl.
  - split; [intros _ x [] | reflexivity].
  - split; [discriminate|]. intros H.
    specialize (H (Some v) (or_introl eq_refl)). discriminate.
  - rewrite IH. split.
    + intros H x [<-|Hx]; [reflexivity | now apply H].
    + intros H x Hx. apply H. now right.
Qed.

Lemma nanmean_nan_iff : forall xs,
  nanmean xs = NaN <-> forall x, In x xs -> x = NaN.
Proof.
  intros xs. rewrite <- dropna_nil_iff. unfold nanmean.
  destruct (dropna xs); split; try reflexivity; discriminate.
Qed.

Lemma fillna_cells_length : forall cs values,
  List.length (fillna_cells cs values) = List.length cs.
Proof.
  induction cs as [|c cs IH]; intros [|v values]; simpl; try reflexivity.
  now rewrite IH.
Qed.

(** The cell at position [j] after a fill. *)
Lemma fillna_cells_nth : forall cs values j,
  (j < List.length cs)%nat ->
  nth j (fillna_cells cs values) NaN =
    match nth j cs NaN with
    | Some q => Some q
    | None => nth j values NaN
    end.
Proof.
  induction cs as [|c cs IH]; intros values j Hj; simpl in Hj; [lia|].
  destruct values as [|v values].
  - simpl fillna_cells. destruct (nth j (c :: cs) NaN); [reflexivity|].
    now destruct j.
  - destruct j as [|j]; simpl.
    + now destruct c.
    + apply IH. lia.
Qed.

(** A fill changes nothing when every NaN cell sits in a column whose
    listed value is NaN too. *)
Lemma fillna_cells_fixed : forall cs values,
  (forall j, (j < List.length cs)%nat -> nth j cs NaN = NaN ->
             nth j values NaN = NaN) ->
  fillna_cells cs values = cs.
Proof.
  induction cs as [|c cs IH]; intros [|v values] H; simpl; try reflexivity.
  f_equal.
  - destruct c as [q|]; [reflexivity|].
    apply (H O); simpl; [lia | reflexivity].
  - apply IH. intros j Hj Hn. apply (H (S j)); simpl; [lia | assumption].
Qed.

Lemma all_nan_fillna_cells : forall cs values,
  all_nan (fillna_cells cs values) = true -> all_nan cs = true.
Proof.
  induction cs as [|c cs IH]; intros [|v values]; simpl; try tauto.
  destruct c as [q|]; simpl; [discriminate|].
  intros H. apply andb_true_iff in H. destruct H as [_ H]. now apply IH in H.
Qed.

Lemma DataFrame_mean_nth : forall m j,
  nth j (DataFrame_mean m) NaN =
    if (j <? List.length (sample_columns m))%nat
    then nanmean (column j (rows m)) else NaN.
Proof.
  intros m j. unfold DataFrame_mean.
  destruct (j <? List.length (sample_columns m))%nat eqn:E.
  - apply Nat.ltb_lt in E.
    rewrite (nth_indep _ NaN (nanmean (column 0 (rows m))))
      by (rewrite length_map, length_seq; exact E).
    rewrite (map_nth (fun j => nanmean (column j (rows m)))).
    rewrite seq_nth by exact E. reflexivity.
  - apply Nat.ltb_ge in E. apply nth_overflow.
    rewrite length_map, length_seq. exact E.
Qed.

Lemma preprocess_data_run : forall w,
  preprocess_data w =
    (Ok tt, mkWorld (preprocessed (methylation_data w)) (metadata w) (figures w)).
Proof. intros w. reflexivity. Qed.

(** After a fill by the column means, a cell is NaN only where the whole
    column is. *)
Lemma filled_column_nan : forall m r j,
  In r (rows (DataFrame_fillna (DataFrame_mean m) m)) ->
  (j < List.length (cells r))%nat ->
  nth j (cells r) NaN = NaN ->
  nth j (DataFrame_mean (DataFrame_fillna (DataFrame_mean m) m)) NaN = NaN.
Proof.
  intros m r j Hr Hj Hnan.
  rewrite DataFrame_mean_nth. simpl sample_columns.
  destruct (j <? List.length (sample_columns m))%nat eqn:E; [|reflexivity].
  simpl in Hr. apply in_map_iff in Hr. destruct Hr as (r0 & <- & Hr0).
  simpl in Hj, Hnan. rewrite fillna_cells_length in Hj.
  rewrite fillna_cells_nth in Hnan by exact Hj.
  destruct (nth j (cells r0) NaN) eqn:Er0; [discriminate|].
  rewrite DataFrame_mean_nth, E in Hnan.
  apply nanmean_nan_iff. intros x Hx.
  unfold column in Hx. simpl rows in Hx. rewrite map_map in Hx.
  apply in_map_iff in Hx. destruct Hx as (r1 & <- & Hr1). simpl.
  assert (Hcol : nth j (cells r1) NaN = NaN).
  { apply (proj1 (nanmean_nan_iff _) Hnan). unfold column.
    apply in_map_iff. exists r1. split; [reflexivity | assumption]. }
  destruct (Nat.lt_ge_cases j (List.length (cells r1))) as [Hlt|Hge].
  - rewrite fillna_cells_nth by exact Hlt. rewrite Hcol.
    rewrite DataFrame_mean_nth, E. exact Hnan.
  - apply nth_overflow. rewrite fillna_cells_length. exact Hge.
Qed.

Lemma fillna_mean_twice : forall m,
  let m' := DataFrame_fillna (DataFrame_mean m) m in
  DataFrame_fillna (DataFrame_mean m') m' = m'.
Proof.
  intros m m'.
  assert (Hrows :
    map (fun r => mkRow (cpgSite r) (fillna_cells (cells r) (DataFrame_mean m')))
        (rows m') = rows m').
  { rewrite <- (map_id (rows m')) at 2.
    apply map_ext_in. intros [id cs] Hr. simpl. f_equal.
    apply fillna_cells_fixed. intros j Hj Hn.
    apply (filled_column_nan m (mkRow id cs) j); assumption. }
  unfold DataFrame_fillna at 1. rewrite Hrows. reflexivity.
Qed.

Lemma dropna_all_filled : forall m values,
  (forall r, In r (rows m) -> row_all_nan r = false) ->
  DataFrame_dropna_all (DataFrame_fillna values m) = DataFrame_fillna values m.
Proof.
  intros m values H. unfold DataFrame_dropna_all. simpl sample_columns.
  unfold DataFrame_fillna at 2. f_equal.
  apply filter_keeps_all. intros r Hr. simpl in Hr.
  apply in_map_iff in Hr. destruct Hr as (r0 & <- & Hr0).
  apply negb_true_iff. specialize (H r0 Hr0).
  unfold row_all_nan in *. simpl. destruct (cpgSite r0); [reflexivity|].
  destruct (all_nan (fillna_cells (cells r0) values)) eqn:E; [|reflexivity].
  apply all_nan_fillna_cells in E. congruence.
Qed.

Lemma preprocessed_idempotent : forall m,
  preprocessed (preprocessed m) = preprocessed m.
Proof.
  intros m. unfold preprocessed at 1 2.
  fold (preprocessed m).
  assert (Hd : DataFrame_dropna_all (preprocessed m) = preprocessed m).
  { unfold preprocessed. apply dropna_all_filled.
    intros r Hr. simpl in Hr. apply filter_In in Hr.
    destruct Hr as [_ Hr]. now apply negb_true_iff in Hr. }
  rewrite Hd. unfold preprocessed. apply fillna_mean_twice.
Qed.

(** ** Stable sites *)

Lemma identify_stable_cpg_sites_run : forall threshold w,
  identify_stable_cpg_sites threshold w =
    (Ok (map cpgSite
             (filter (fun r => flt (nanvar (cells r)) threshold)
                     (rows (methylation_data w)))), w).
Proof.
  intros threshold w. unfold identify_stable_cpg_sites, bind, get_methylation_data, ret.
  unfold row_variances. rewrite map_map, mask_select_map. reflexivity.
Qed.




(** C10. [identify_stable_cpg_sites] is monotone in its threshold: for
    [t1 <= t2] the result for [t1] is an order-preserving sub-list of the
    result for [t2]; and every threshold [t <= 0] gives the empty list. *)
Theorem identify_stable_cpg_sites_monotone :
  (forall w t1 t2,
      fle t1 t2 = true ->
      exists l1 l2,
        identify_stable_cpg_sites t1 w = (Ok l1, w) /\
        identify_stable_cpg_sites t2 w = (Ok l2, w) /\
        subseq l1 l2 /\
        (forall p, In p l1 -> In p l2)) /\
  (forall w t,
      fle t (Some 0) = true ->
      identify_stable_cpg_sites t w = (Ok [], w)).
Proof.
  split.
  - intros w t1 t2 Hle. do 2 eexists.
    split; [apply identify_stable_cpg_sites_run|].
    split; [apply identify_stable_cpg_sites_run|].
    assert (Hsub : subseq
      (map cpgSite (filter (fun r => flt (nanvar (cells r)) t1) (rows (methylation_data w))))
      (map cpgSite (filter (fun r => flt (nanvar (cells r)) t2) (rows (methylation_data w))))).
    { apply subseq_filter_imp. intros r _ H. eapply flt_fle_trans; eassumption. }
    split; [exact Hsub|]. intros p. now apply subseq_In.
  - intros w t Hle. rewrite identify_stable_cpg_sites_run.
    replace (filter (fun r => flt (nanvar (cells r)) t) (rows (methylation_data w)))
      with (@nil Row); [reflexivity|].
    symmetry. induction (rows (methylation_data w)) as [|r rs IH]; [reflexivity|].
    simpl. rewrite IH.
    destruct (flt (nanvar (cells r)) t) eqn:E; [|reflexivity].
    exfalso. pose proof (flt_fle_trans _ _ _ E Hle) as H.
    apply flt_spec in H. destruct H as (a & b & Ha & Hb & Hlt).
    inversion Hb; subst b. apply nanvar_nonneg in Ha.
    apply (Qlt_not_le _ _ Hlt Ha).
Qed.

Lemma identify_stable_cpg_sites_monotone_witness :
  (exists l1 l2,
      identify_stable_cpg_sites (Some 0.01) loaded = (Ok l1, loaded) /\
      identify_stable_cpg_sites (Some 0.5) loaded = (Ok l2, loaded) /\
      subseq l1 l2 /\ (forall p, In p l1 -> In p l2)) /\
  identify_stable_cpg_sites (Some (-1)) loaded = (Ok [], loaded).
Proof.
  split.
  - apply (proj1 identify_stable_cpg_sites_monotone loaded (Some 0.01) (Some 0.5)).
    reflexivity.
  - apply (proj2 identify_stable_cpg_sites_monotone loaded (Some (-1))).
    reflexivity.
Defined.

(** ** Preprocessing *)

(** C8. [preprocess_data] is idempotent: a second run right after a
    first one returns normally and leaves the world, and so the stored
    methylation matrix, as the first run left it. *)
Theorem preprocess_data_idempotent : forall w,
  preprocess_data (snd (preprocess_data w)) = (Ok tt, snd (preprocess_data w)).
Proof.
  intros w. rewrite (preprocess_data_run w). simpl snd.
  rewrite preprocess_data_run. simpl.
  rewrite preprocessed_idempotent. reflexivity.
Qed.

(** The rows [preprocess_data] keeps are those with some cell available,
    the identifier cell included; a row with an identifier always stays. *)
Lemma preprocess_data_keeps : forall m,
  map cpgSite (rows (preprocessed m)) =
  map cpgSite (filter (fun r => negb (row_all_nan r)) (rows m)).
Proof.
  intros m. unfold preprocessed. simpl. rewrite map_map. reflexivity.
Qed.

(** What [preprocess_data] writes into a missing cell of a retained row:
    the mean of the cell's column over the retained rows. *)
Lemma preprocess_data_fill_value : forall m r j,
  In r (rows (DataFrame_dropna_all m)) ->
  (j < List.length (cells r))%nat ->
  (j < List.length (sample_columns m))%nat ->
  nth j (cells r) NaN = NaN ->
  nth j (fillna_cells (cells r) (DataFrame_mean (DataFrame_dropna_all m))) NaN
  = nanmean (column j (rows (DataFrame_dropna_all m))).
Proof.
  intros m r j _ Hj Hcol Hnan.
  rewrite fillna_cells_nth by exact Hj. rewrite Hnan.
  rewrite DataFrame_mean_nth. simpl sample_columns.
  apply Nat.ltb_lt in Hcol. now rewrite Hcol.
Qed.

(** C3. On a matrix where probe [cg1] has an identifier and no data in
    any sample, [preprocess_data] keeps the row of [cg1] (and then fills
    it with the column means): the row is not removed. *)
Theorem preprocess_data_keeps_empty_probe :
  rows (methylation_data
          (snd (preprocess_data (mkWorld matrix_with_empty_probe four_samples []))))
  = [ mkRow (Some "cg1"%string) [Some 0.4; Some 0.8];
      mkRow (Some "cg2"%string) [Some 0.4; Some 0.8] ].
Proof. reflexivity. Qed.

(** C2. On a matrix where probe [cg1] has the values [0.2, NaN],
    [preprocess_data] fills the missing cell with 0.8, the mean of its
    column [S2], whereas the mean of the row's available values is 0.2. *)
Theorem preprocess_data_fills_with_column_mean :
  rows (methylation_data
          (snd (preprocess_data (mkWorld matrix_with_gap four_samples []))))
  = [ mkRow (Some "cg1"%string) [Some 0.2; Some 0.8];
      mkRow (Some "cg2"%string) [Some 0.4; Some 0.8] ]
  /\ nanmean [Some 0.2; NaN] = Some 0.2
  /\ ~ 0.8 == 0.2.
Proof.
  split; [reflexivity|]. split; [reflexivity|]. discriminate.
Qed.

(** ** Significant sites *)

Lemma index_of_In : forall s l, In s l -> exists j, index_of s l = Some j.
Proof.
  induction l as [|x l IH]; simpl; intros H; [contradiction|].
  destruct (String.eqb s x) eqn:E; [now exists O|].
  destruct H as [H|H].
  - subst x. rewrite String.eqb_refl in E. discriminate.
  - destruct (IH H) as [j Hj]. rewrite Hj. now exists (S j).
Qed.


Section SignificantSites.

Variable ttest_ind : list Q -> list Q -> float.




End SignificantSites.









(** ** What the methods leave alone *)

Lemma preserves_ret : forall A (a : A), preserves_tables (ret a).
Proof. intros A a w. reflexivity. Qed.

Lemma preserves_lift : forall A (r : result A), preserves_tables (lift r).
Proof. intros A r w. reflexivity. Qed.

Lemma preserves_get_methylation_data : preserves_tables get_methylation_data.
Proof. intros w. reflexivity. Qed.

Lemma preserves_get_metadata : preserves_tables get_metadata.
Proof. intros w. reflexivity. Qed.

Lemma preserves_show : forall f, preserves_tables (plt_show f).
Proof. intros f w. reflexivity. Qed.

Lemma preserves_bind : forall A B (c : M A) (k : A -> M B),
  preserves_tables c -> (forall a, preserves_tables (k a)) ->
  preserves_tables (bind c k).
Proof.
  intros A B c k Hc Hk w. unfold bind.
  specialize (Hc w). destruct (c w) as [[a|e] w']; simpl in *.
  - rewrite (Hk a w'). exact Hc.
  - exact Hc.
Qed.

Create HintDb frame.
#[local] Hint Resolve preserves_ret preserves_lift preserves_get_methylation_data
  preserves_get_metadata preserves_show : frame.

Ltac frame_step :=
  repeat (apply preserves_bind; [auto with frame | intros ?]); auto with frame.

Lemma preserves_identify_stable_cpg_sites : forall threshold,
  preserves_tables (identify_stable_cpg_sites threshold).
Proof. intros threshold. unfold identify_stable_cpg_sites. frame_step. Qed.

Lemma preserves_identify_significant_cpg_sites :
  forall ttest_ind group_field group1 group2 threshold,
    preserves_tables
      (identify_significant_cpg_sites ttest_ind group_field group1 group2 threshold).
Proof. intros. unfold identify_significant_cpg_sites. frame_step. Qed.

Lemma preserves_plot_cpg_against_age : forall fit cpg_site,
  preserves_tables (plot_cpg_against_age fit cpg_site).
Proof. intros. unfold plot_cpg_against_age. frame_step. Qed.

Lemma preserves_correlation_loop : forall pearsonr format_2f cpg_sites correlations,
  preserves_tables (correlation_loop pearsonr format_2f cpg_sites correlations).
Proof.
  intros pearsonr format_2f cpg_sites.
  induction cpg_sites as [|cpg_site rest IH]; intros correlations; simpl.
  - auto with frame.
  - repeat (apply preserves_bind; [auto with frame | intros ?]). apply IH.
Qed.

(** C9. Whatever they return or raise, [identify_stable_cpg_sites],
    [identify_significant_cpg_sites], [plot_cpg_against_age] and
    [visualize_correlation_with_age] leave the methylation matrix and
    the metadata table exactly as they were; [preprocess_data] is the
    method that changes stored state, and it does change the matrix of
    some worlds. *)
Theorem only_preprocess_data_mutates :
  forall ttest_ind fit pearsonr format_2f,
    (forall threshold w,
        tables (snd (identify_stable_cpg_sites threshold w)) = tables w) /\
    (forall group_field group1 group2 threshold w,
        tables (snd (identify_significant_cpg_sites ttest_ind group_field
                       group1 group2 threshold w)) = tables w) /\
    (forall cpg_site w,
        tables (snd (plot_cpg_against_age fit cpg_site w)) = tables w) /\
    (forall cpg_sites w,
        tables (snd (visualize_correlation_with_age pearsonr format_2f cpg_sites w))
        = tables w) /\
    (exists w, methylation_data (snd (preprocess_data w)) <> methylation_data w).
Proof.
  intros ttest_ind fit pearsonr format_2f.
  split; [|split; [|split; [|split]]].
  - intros threshold. apply preserves_identify_stable_cpg_sites.
  - intros group_field group1 group2 threshold.
    apply preserves_identify_significant_cpg_sites.
  - intros cpg_site. apply preserves_plot_cpg_against_age.
  - intros cpg_sites. apply preserves_correlation_loop.
  - exists (mkWorld matrix_with_gap four_samples []). discriminate.
Qed.

(** ** Plotting a probe that is not in the matrix *)

Lemma probe_against_age_absent : forall m md cpg_site,
  probe_absent m cpg_site ->
  probe_against_age m md cpg_site = Raise KeyError.
Proof.
  intros m md cpg_site Habs. unfold probe_against_age.
  replace (filter _ (rows m)) with (@nil Row); [reflexivity|].
  symmetry. unfold probe_absent in Habs.
  induction (rows m) as [|r rs IH]; [reflexivity|].
  simpl. rewrite IH by (intros r' Hr'; apply Habs; now right).
  specialize (Habs r (or_introl eq_refl)).
  destruct (cpgSite r) as [s|]; [|reflexivity].
  destruct (String.eqb s cpg_site) eqn:E; [|reflexivity].
  apply String.eqb_eq in E. congruence.
Qed.

(** C5 (as the code has it). For a probe identifier carried by no row
    of the matrix, [plot_cpg_against_age] raises [KeyError] and shows no
    figure: the world is left as it was. *)
Theorem plot_cpg_against_age_absent_probe : forall fit cpg_site w,
  probe_absent (methylation_data w) cpg_site ->
  plot_cpg_against_age fit cpg_site w = (Raise KeyError, w).
Proof.
  intros fit cpg_site w Habs.
  unfold plot_cpg_against_age, bind, get_methylation_data, get_metadata, lift.
  rewrite (probe_against_age_absent _ (metadata w) _ Habs). reflexivity.
Qed.

Lemma plot_cpg_against_age_absent_probe_witness :
  plot_cpg_against_age interpolating_fit "cg_missing" loaded = (Raise KeyError, loaded).
Proof.
  apply (plot_cpg_against_age_absent_probe interpolating_fit "cg_missing" loaded).
  intros r Hr. simpl in Hr.
  destruct Hr as [<-|[<-|[<-|[]]]]; discriminate.
Defined.

(** C5 (as stated) fails: [cg_missing] is not in the matrix, no figure is
    shown, but the exception raised is [KeyError], not
    [ProbeNotFoundError]. *)
Lemma plot_cpg_against_age_no_ProbeNotFoundError :
  plot_cpg_against_age interpolating_fit "cg_missing" loaded = (Raise KeyError, loaded)
  /\ ~ (exists e w',
          plot_cpg_against_age interpolating_fit "cg_missing" loaded = (Raise e, w')
          /\ exc_class e = "ProbeNotFoundError"%string).
Proof.
  split; [reflexivity|].
  intros (e & w' & H & Hclass).
  vm_compute in H. injection H as <- _.
  simpl in Hclass. discriminate Hclass.
Qed.

(** The same method on a probe that is in the matrix shows its two
    figures. *)
Example plot_cpg_against_age_present :
  map fit_label (figures (snd (plot_cpg_against_age interpolating_fit "cg_diff" loaded)))
  = ["Linear Fit"; "Polynomial Fit (Degree 2)"]%string.
Proof. reflexivity. Qed.

(** On the four-sample example the constant probe is the only stable
    one at the default threshold. *)
Example identify_stable_cpg_sites_default :
  fst (identify_stable_cpg_sites (Some 0.01) loaded) = Ok [Some "cg_flat"%string].
Proof. reflexivity. Qed.

(** A row is dropped when its identifier cell is empty as well. *)
Example preprocess_data_drops_blank_row :
  rows (preprocessed
          (mkMatrix ["S1"; "S2"]%string
                    [ mkRow None [NaN; NaN];
                      mkRow (Some "cg2"%string) [Some 0.4; Some 0.8] ]))
  = [ mkRow (Some "cg2"%string) [Some 0.4; Some 0.8] ].
Proof. reflexivity. Qed.

(** Asking twice for the same probe shows two figures and leaves one
    entry in the returned dict. *)
Example visualize_correlation_with_age_repeated :
  let out := visualize_correlation_with_age perfect_pearsonr plain_format
               ["cg_diff"; "cg_diff"]%string loaded in
  fst out = Ok [("cg_diff"%string, Some 1)] /\
  List.length (figures (snd out)) = 2%nat.
Proof. split; reflexivity. Qed.

(** * Further properties of the methods *)

(** ** [preprocess_data] *)

Lemma Forall2_map_right : forall A B (R : A -> B -> Prop) (f : A -> B) (l : list A),
  (forall x, In x l -> R x (f x)) -> Forall2 R l (map f l).
Proof.
  induction l as [|x l IH]; simpl; intros H; constructor.
  - apply H. now left.
  - apply IH. intros y Hy. apply H. now right.
Qed.

Lemma nth_some_in_range : forall (cs : list float) j q,
  nth j cs NaN = Some q -> (j < List.length cs)%nat.
Proof.
  intros cs j q H. destruct (Nat.lt_ge_cases j (List.length cs)) as [Hlt|Hge];
    [exact Hlt|].
  rewrite nth_overflow in H by exact Hge. discriminate.
Qed.

Lemma all_nan_nth : forall cs j, all_nan cs = true -> nth j cs NaN = NaN.
Proof.
  induction cs as [|c cs IH]; intros j H; [now destruct j|].
  simpl in H. apply andb_true_iff in H. destruct H as [Hc Hcs].
  destruct j as [|j]; simpl.
  - destruct c; [discriminate | reflexivity].
  - now apply IH.
Qed.

Lemma row_all_nan_nth : forall r j, row_all_nan r = true -> nth j (cells r) NaN = NaN.
Proof.
  intros r j H. unfold row_all_nan in H.
  destruct (cpgSite r); [discriminate|]. now apply all_nan_nth.
Qed.

Lemma fillna_cells_keeps : forall cs values j q,
  nth j cs NaN = Some q -> nth j (fillna_cells cs values) NaN = Some q.
Proof.
  intros cs values j q H.
  rewrite fillna_cells_nth by (eapply nth_some_in_range; exact H).
  now rewrite H.
Qed.

(** X1. [preprocess_data] never overwrites data: the sample columns are
    unchanged, and the rows of the new matrix are, one for one and in
    order, the rows that were not entirely empty, each with its
    identifier, its width and every value it had. *)
Theorem preprocess_data_keeps_values : forall w,
  sample_columns (methylation_data (snd (preprocess_data w)))
    = sample_columns (methylation_data w) /\
  Forall2 imputed_from
          (filter (fun r => negb (row_all_nan r)) (rows (methylation_data w)))
          (rows (methylation_data (snd (preprocess_data w)))).
Proof.
  intros w. rewrite preprocess_data_run. simpl. split; [reflexivity|].
  apply Forall2_map_right. intros r _. unfold imputed_from. simpl.
  split; [reflexivity|]. split; [apply fillna_cells_length|].
  intros j q. apply fillna_cells_keeps.
Qed.





(** X3. A sample column with no value at all stays entirely missing
    through [preprocess_data]: there is nothing to impute it from. *)
Theorem preprocess_data_dead_column : forall w j,
  (forall r, In r (rows (methylation_data w)) -> nth j (cells r) NaN = NaN) ->
  forall r, In r (rows (methylation_data (snd (preprocess_data w)))) ->
            nth j (cells r) NaN = NaN.
Proof.
  intros w j Hdead r Hr.
  rewrite preprocess_data_run in Hr. simpl in Hr.
  apply in_map_iff in Hr. destruct Hr as (r0 & <- & Hr0). simpl.
  apply filter_In in Hr0. destruct Hr0 as [Hr0 _].
  destruct (Nat.lt_ge_cases j (List.length (cells r0))) as [Hlt|Hge].
  - rewrite fillna_cells_nth by exact Hlt. rewrite (Hdead r0 Hr0).
    rewrite DataFrame_mean_nth.
    destruct (j <? _)%nat; [|reflexivity].
    apply nanmean_nan_iff. intros x Hx. unfold column in Hx.
    apply in_map_iff in Hx. destruct Hx as (r1 & <- & Hr1).
    simpl in Hr1. apply filter_In in Hr1. apply Hdead. tauto.
  - apply nth_overflow. rewrite fillna_cells_length. exact Hge.
Qed.

Lemma preprocess_data_dead_column_witness :
  nth 1 (cells (nth 0 (rows (methylation_data
                               (snd (preprocess_data
                                       (mkWorld matrix_with_dead_column
                                                four_samples [])))))
                    (mkRow None [])))
      NaN = NaN.
Proof.
  apply (preprocess_data_dead_column
           (mkWorld matrix_with_dead_column four_samples []) 1%nat).
  - intros r Hr. simpl in Hr. destruct Hr as [<-|[<-|[]]]; reflexivity.
  - left. reflexivity.
Defined.




Lemma subseq_map_filter : forall A B (g : A -> B) (p : A -> bool) (xs : list A),
  subseq (map g (filter p xs)) (map g xs).
Proof.
  intros A B g p xs.
  rewrite <- (filter_keeps_all A (fun _ => true) xs (fun _ _ => eq_refl)) at 2.
  apply subseq_filter_imp. reflexivity.
Qed.

(** X6. [preprocess_data] neither reorders nor invents rows: the
    identifier column afterwards is an order-preserving sub-list of the
    one before, and every row that has an identifier is still there. *)
Theorem preprocess_data_rows : forall w,
  subseq (map cpgSite (rows (methylation_data (snd (preprocess_data w)))))
         (map cpgSite (rows (methylation_data w))) /\
  (forall r, In r (rows (methylation_data w)) -> cpgSite r <> None ->
             In (cpgSite r)
                (map cpgSite (rows (methylation_data (snd (preprocess_data w)))))) /\
  ((forall r, In r (rows (methylation_data w)) -> cpgSite r <> None) ->
   map cpgSite (rows (methylation_data (snd (preprocess_data w))))
   = map cpgSite (rows (methylation_data w))).
Proof.
  intros w. rewrite preprocess_data_run. simpl methylation_data.
  rewrite preprocess_data_keeps. split; [apply subseq_map_filter|]. split.
  - intros r Hr Hid. apply in_map. apply filter_In. split; [exact Hr|].
    unfold row_all_nan. destruct (cpgSite r); [reflexivity | congruence].
  - intros Hall. f_equal. apply filter_keeps_all. intros r Hr.
    specialize (Hall r Hr). unfold row_all_nan.
    destruct (cpgSite r); [reflexivity | congruence].
Qed.

Lemma preprocess_data_rows_witness :
  In (Some "cg1"%string)
     (map cpgSite
          (rows (methylation_data
                   (snd (preprocess_data
                           (mkWorld matrix_with_empty_probe four_samples [])))))).
Proof.
  apply (proj1 (proj2 (preprocess_data_rows
                         (mkWorld matrix_with_empty_probe four_samples [])))
               (mkRow (Some "cg1"%string) [NaN; NaN])).
  - simpl. tauto.
  - discriminate.
Defined.

(** *** Column means *)

Lemma feq_refl : forall x, feq x x.
Proof. intros [q|]; simpl; [reflexivity | exact I]. Qed.

Lemma dropna_column_kept : forall j rs,
  dropna (column j (filter (fun r => negb (row_all_nan r)) rs))
  = dropna (column j rs).
Proof.
  induction rs as [|r rs IH]; [reflexivity|]. simpl.
  destruct (row_all_nan r) eqn:E; simpl.
  - rewrite (row_all_nan_nth r j E). exact IH.
  - destruct (nth j (cells r) NaN); [f_equal|]; exact IH.
Qed.

Lemma filled_column_same : forall values j rs,
  nth j values NaN = NaN ->
  column j (map (fun r => mkRow (cpgSite r) (fillna_cells (cells r) values)) rs)
  = column j rs.
Proof.
  intros values j rs Hnan. unfold column. rewrite map_map.
  apply map_ext. intros r. simpl.
  destruct (Nat.lt_ge_cases j (List.length (cells r))) as [Hlt|Hge].
  - rewrite fillna_cells_nth by exact Hlt.
    destruct (nth j (cells r) NaN); [reflexivity | exact Hnan].
  - rewrite !nth_overflow; [reflexivity | exact Hge |].
    rewrite fillna_cells_length. exact Hge.
Qed.

(** Filling a column with [avg] adds some number [k] of copies of [avg]
    to its available values. *)
Lemma filled_column_sum : forall values j avg rs,
  nth j values NaN = Some avg ->
  exists k : nat,
    Qsum (dropna (column j (map (fun r => mkRow (cpgSite r)
                                              (fillna_cells (cells r) values)) rs)))
      == Qsum (dropna (column j rs)) + inject_Z (Z.of_nat k) * avg /\
    List.length (dropna (column j (map (fun r => mkRow (cpgSite r)
                                              (fillna_cells (cells r) values)) rs)))
      = (List.length (dropna (column j rs)) + k)%nat.
Proof.
  intros values j avg rs Havg.
  induction rs as [|r rs (k & Hsum & Hlen)].
  - exists O. split; [simpl; ring | reflexivity].
  - simpl map. unfold column in *. simpl map. simpl cells.
    destruct (Nat.lt_ge_cases j (List.length (cells r))) as [Hlt|Hge].
    + rewrite fillna_cells_nth by exact Hlt.
      destruct (nth j (cells r) NaN) as [q|] eqn:E.
      * exists k. split.
        -- change (q + Qsum (dropna (map (fun r0 => nth j (cells r0) NaN)
                      (map (fun r0 => mkRow (cpgSite r0)
                                            (fillna_cells (cells r0) values)) rs)))
                   == q + Qsum (dropna (map (fun r0 => nth j (cells r0) NaN) rs))
                      + inject_Z (Z.of_nat k) * avg).
           rewrite Hsum. ring.
        -- simpl. now rewrite Hlen.
      * rewrite Havg. exists (S k). split.
        -- change (avg + Qsum (dropna (map (fun r0 => nth j (cells r0) NaN)
                      (map (fun r0 => mkRow (cpgSite r0)
                                            (fillna_cells (cells r0) values)) rs)))
                   == Qsum (dropna (map (fun r0 => nth j (cells r0) NaN) rs))
                      + inject_Z (Z.of_nat (S k)) * avg).
           rewrite Hsum, Nat2Z.inj_succ, <- Z.add_1_r, inject_Z_plus. ring.
        -- simpl. rewrite Hlen. lia.
    + rewrite (nth_overflow (fillna_cells (cells r) values))
        by (rewrite fillna_cells_length; exact Hge).
      rewrite (nth_overflow (cells r)) by exact Hge.
      exists k. split; [exact Hsum | exact Hlen].
Qed.

Lemma count_app_length : forall (xs ys : list Q) k,
  List.length ys = (List.length xs + k)%nat ->
  count ys == count xs + inject_Z (Z.of_nat k).
Proof.
  intros xs ys k H. unfold count. rewrite H, Nat2Z.inj_add, inject_Z_plus.
  reflexivity.
Qed.

Lemma count_pos : forall x xs, 0 < count (x :: xs).
Proof.
  intros x xs. rewrite count_cons. pose proof (count_nonneg xs). lra.
Qed.

Lemma mean_after_fill : forall s n kq : Q,
  0 < n -> 0 <= kq -> (s + kq * (s / n)) / (n + kq) == s / n.
Proof. intros s n kq Hn Hkq. field. split; lra. Qed.

(** X4. Imputation keeps every column mean: after [preprocess_data] the
    mean of each sample column over its available values is what it was
    before (NaN stays NaN). *)
Theorem preprocess_data_keeps_column_means : forall w j,
  feq (nanmean (column j (rows (methylation_data (snd (preprocess_data w))))))
      (nanmean (column j (rows (methylation_data w)))).
Proof.
  intros w j. rewrite preprocess_data_run. simpl methylation_data.
  set (m := methylation_data w).
  assert (Hbefore : nanmean (column j (rows m))
                    = nanmean (column j (rows (DataFrame_dropna_all m)))).
  { unfold nanmean. simpl rows. now rewrite dropna_column_kept. }
  rewrite Hbefore. unfold preprocessed. simpl rows.
  set (kept := filter (fun r => negb (row_all_nan r)) (rows m)).
  set (values := DataFrame_mean (DataFrame_dropna_all m)).
  destruct (nth j values NaN) as [avg|] eqn:Eavg.
  - destruct (filled_column_sum values j avg kept Eavg) as (k & Hsum & Hlen).
    assert (Hmean : nanmean (column j kept) = Some avg).
    { unfold values in Eavg. rewrite DataFrame_mean_nth in Eavg.
      destruct (j <? _)%nat; [exact Eavg | discriminate]. }
    unfold nanmean in *.
    destruct (dropna (column j kept)) as [|x xs] eqn:Ex; [discriminate|].
    injection Hmean as Hmean.
    destruct (dropna (column j (map _ kept))) as [|y ys] eqn:Ey;
      [simpl in Hlen; lia|].
    simpl feq.
    pose proof (count_app_length (x :: xs) (y :: ys) k Hlen) as Hcount.
    pose proof (count_pos x xs) as Hpos.
    assert (Hk : 0 <= inject_Z (Z.of_nat k)).
    { change 0 with (inject_Z 0). rewrite <- Zle_Qle. lia. }
    rewrite Hsum, Hcount, <- Hmean.
    change (x + Qsum xs) with (Qsum (x :: xs)).
    apply mean_after_fill; assumption.
  - rewrite (filled_column_same values j kept Eavg). apply feq_refl.
Qed.

(** ** [identify_stable_cpg_sites] *)

(** X7. Whatever the threshold, [identify_stable_cpg_sites] returns an
    order-preserving sub-list of the identifier column and leaves the
    world alone; with a NaN threshold it returns the empty list. *)
Theorem identify_stable_cpg_sites_sublist : forall w threshold,
  exists sites,
    identify_stable_cpg_sites threshold w = (Ok sites, w) /\
    subseq sites (map cpgSite (rows (methylation_data w))) /\
    (threshold = NaN -> sites = []).
Proof.
  intros w threshold. eexists.
  split; [apply identify_stable_cpg_sites_run|].
  split; [apply subseq_map_filter|].
  intros ->. induction (rows (methylation_data w)) as [|r rs IH]; [reflexivity|].
  simpl. destruct (nanvar (cells r)); exact IH.
Qed.

Lemma identify_stable_cpg_sites_sublist_witness :
  exists sites,
    identify_stable_cpg_sites NaN loaded = (Ok sites, loaded) /\ sites = [].
Proof.
  destruct (identify_stable_cpg_sites_sublist loaded NaN) as (sites & Hrun & _ & Hnan).
  exists sites. split; [exact Hrun | now apply Hnan].
Defined.

(** ** [identify_significant_cpg_sites] *)

Lemma index_of_none : forall s l, ~ In s l -> index_of s l = None.
Proof.
  induction l as [|x l IH]; simpl; intros H; [reflexivity|].
  destruct (String.eqb s x) eqn:E.
  - apply String.eqb_eq in E. subst x. exfalso. apply H. now left.
  - rewrite IH; [reflexivity|]. intros Hin. apply H. now right.
Qed.

Lemma index_of_some_In : forall s l j, index_of s l = Some j -> In s l.
Proof.
  induction l as [|x l IH]; simpl; intros j H; [discriminate|].
  destruct (String.eqb s x) eqn:E.
  - apply String.eqb_eq in E. now left.
  - destruct (index_of s l) as [i|]; [|discriminate]. right. now apply (IH i).
Qed.

Lemma known_labels_incl : forall cols labels,
  known_labels cols labels = true <-> incl labels cols.
Proof.
  intros cols labels. unfold known_labels. rewrite forallb_forall. split.
  - intros H l Hl. specialize (H l Hl).
    destruct (index_of l cols) as [j|] eqn:E; [|discriminate].
    now apply (index_of_some_In l cols j).
  - intros H l Hl. destruct (index_of_In l cols (H l Hl)) as [j ->]. reflexivity.
Qed.

(** [row[labels]] either finds every label or raises [KeyError]; which
    of the two does not depend on the row. *)
Lemma row_getitem_total : forall cols r labels,
  row_getitem cols r labels =
    if known_labels cols labels then Ok (map (cell_at cols r) labels)
    else Raise KeyError.
Proof.
  induction labels as [|l ls IH]; [reflexivity|].
  simpl. unfold cell_at at 1.
  destruct (index_of l cols) as [j|]; [|reflexivity].
  rewrite IH. simpl. now destruct (known_labels cols ls).
Qed.

Section SignificantSitesTotal.

Variable ttest_ind : list Q -> list Q -> float.

Lemma significant_loop_total : forall cols s1 s2 threshold rs acc,
  significant_loop ttest_ind cols s1 s2 threshold rs acc =
    match rs with
    | [] => Ok acc
    | _ :: _ =>
        if known_labels cols s1 && known_labels cols s2
        then Ok (acc ++ map cpgSite (filter (significant ttest_ind cols s1 s2 threshold) rs))
        else Raise KeyError
    end.
Proof.
  intros cols s1 s2 threshold rs. induction rs as [|r rs IH]; intros acc;
    [reflexivity|].
  simpl significant_loop. rewrite !row_getitem_total.
  destruct (known_labels cols s1); [|reflexivity].
  destruct (known_labels cols s2); [|reflexivity].
  simpl. rewrite IH. unfold significant at 2, group_values.
  destruct rs as [|r' rs'].
  - simpl. destruct (flt _ threshold); simpl; [reflexivity|].
    now rewrite app_nil_r.
  - destruct (flt _ threshold); [|reflexivity].
    rewrite <- app_assoc. reflexivity.
Qed.

Lemma identify_significant_cpg_sites_total :
  forall group_field group1 group2 threshold w,
    identify_significant_cpg_sites ttest_ind group_field group1 group2 threshold w =
      (rbind (group_samples (metadata w) group_field group1) (fun s1 =>
       rbind (group_samples (metadata w) group_field group2) (fun s2 =>
       significant_loop ttest_ind (sample_columns (methylation_data w)) s1 s2
                        threshold (rows (methylation_data w)) [])), w).
Proof.
  intros group_field group1 group2 threshold w.
  unfold identify_significant_cpg_sites, bind, get_metadata, get_methylation_data, lift.
  destruct (group_samples (metadata w) group_field group1); [|reflexivity].
  destruct (group_samples (metadata w) group_field group2); reflexivity.
Qed.

End SignificantSitesTotal.

Lemma group_samples_missing_field : forall md group_field value,
  group_field <> "SampleID"%string -> group_field <> "Age"%string ->
  ~ In group_field (fields md) ->
  group_samples md group_field value = Raise KeyError.
Proof.
  intros md group_field value H1 H2 H3. unfold group_samples, column_equals.
  apply String.eqb_neq in H1. apply String.eqb_neq in H2.
  rewrite H1, H2, (index_of_none _ _ H3). reflexivity.
Qed.

(** Whether the selection raises depends on the field only, not on the
    category value asked for. *)
Lemma group_samples_raise : forall md group_field value value' e,
  group_samples md group_field value = Raise e ->
  group_samples md group_field value' = Raise e.
Proof.
  intros md group_field value value' e. unfold group_samples, column_equals.
  destruct (String.eqb group_field "SampleID"); [discriminate|].
  destruct (String.eqb group_field "Age"); [discriminate|].
  destruct (index_of group_field (fields md)); [discriminate|].
  simpl. trivial.
Qed.

(** X8. When the group field is not a column of the metadata table,
    [identify_significant_cpg_sites] raises [KeyError] and changes
    nothing. *)
Theorem identify_significant_cpg_sites_missing_field :
  forall ttest_ind group_field group1 group2 p_value_threshold w,
    group_field <> "SampleID"%string -> group_field <> "Age"%string ->
    ~ In group_field (fields (metadata w)) ->
    identify_significant_cpg_sites ttest_ind group_field group1 group2
                                   p_value_threshold w = (Raise KeyError, w).
Proof.
  intros ttest_ind group_field group1 group2 threshold w H1 H2 H3.
  rewrite identify_significant_cpg_sites_total.
  rewrite (group_samples_missing_field _ _ group1 H1 H2 H3). reflexivity.
Qed.

Lemma identify_significant_cpg_sites_missing_field_witness :
  identify_significant_cpg_sites small_sample_ttest "Smoker" "yes" "no" (Some 0.05) loaded
  = (Raise KeyError, loaded).
Proof.
  apply (identify_significant_cpg_sites_missing_field small_sample_ttest
           "Smoker" "yes" "no" (Some 0.05) loaded).
  - discriminate.
  - discriminate.
  - simpl. intros [H|[]]. discriminate H.
Defined.

(** X9. When the matrix has at least one row and some selected sample is
    not one of its columns, [identify_significant_cpg_sites] raises
    [KeyError]: no partial list is returned. *)
Theorem identify_significant_cpg_sites_unknown_sample :
  forall ttest_ind group_field group1 group2 p_value_threshold w s1 s2 sample,
    group_samples (metadata w) group_field group1 = Ok s1 ->
    group_samples (metadata w) group_field group2 = Ok s2 ->
    rows (methylation_data w) <> [] ->
    In sample (s1 ++ s2) ->
    ~ In sample (sample_columns (methylation_data w)) ->
    identify_significant_cpg_sites ttest_ind group_field group1 group2
                                   p_value_threshold w = (Raise KeyError, w).
Proof.
  intros ttest_ind group_field group1 group2 threshold w s1 s2 sample
         E1 E2 Hrows Hin Hmissing.
  rewrite identify_significant_cpg_sites_total, E1, E2. simpl.
  rewrite significant_loop_total.
  destruct (rows (methylation_data w)) as [|r rs]; [congruence|].
  replace (known_labels _ s1 && known_labels _ s2) with false; [reflexivity|].
  symmetry. apply andb_false_iff. apply in_app_or in Hin.
  destruct Hin as [Hin|Hin]; [left | right];
    (destruct (known_labels (sample_columns (methylation_data w)) _) eqn:E;
     [|reflexivity]);
    apply known_labels_incl in E; exfalso; apply Hmissing; now apply E.
Qed.

(** X10. On a matrix without rows the loop body never runs: the call
    returns the empty list as soon as the group field is a metadata
    column, whether or not the selected samples are matrix columns. *)
Theorem identify_significant_cpg_sites_no_rows :
  forall ttest_ind group_field group1 group2 p_value_threshold w s1 s2,
    group_samples (metadata w) group_field group1 = Ok s1 ->
    group_samples (metadata w) group_field group2 = Ok s2 ->
    rows (methylation_data w) = [] ->
    identify_significant_cpg_sites ttest_ind group_field group1 group2
                                   p_value_threshold w = (Ok [], w).
Proof.
  intros ttest_ind group_field group1 group2 threshold w s1 s2 E1 E2 Hrows.
  rewrite identify_significant_cpg_sites_total, E1, E2. simpl.
  now rewrite Hrows.
Qed.

Lemma identify_significant_cpg_sites_unknown_sample_witness :
  identify_significant_cpg_sites small_sample_ttest
      "Disease State" "Control" "COVID" (Some 0.05) half_measured
  = (Raise KeyError, half_measured).
Proof.
  apply (identify_significant_cpg_sites_unknown_sample small_sample_ttest
           "Disease State" "Control" "COVID" (Some 0.05) half_measured
           ["S1"; "S2"]%string ["S3"; "S4"]%string "S3"%string).
  - reflexivity.
  - reflexivity.
  - discriminate.
  - simpl. tauto.
  - simpl. intros [H|[H|[]]]; discriminate H.
Defined.

Lemma identify_significant_cpg_sites_no_rows_witness :
  identify_significant_cpg_sites small_sample_ttest
      "Disease State" "Control" "COVID" (Some 0.05) no_probes
  = (Ok [], no_probes).
Proof.
  apply (identify_significant_cpg_sites_no_rows small_sample_ttest
           "Disease State" "Control" "COVID" (Some 0.05) no_probes
           ["S1"; "S2"]%string ["S3"; "S4"]%string); reflexivity.
Defined.

(** X11. With a p-value that does not depend on the order of the two
    samples, exchanging the two category values changes nothing: same
    list, same exception, on every input. *)
Theorem identify_significant_cpg_sites_symmetric :
  forall ttest_ind group_field group1 group2 p_value_threshold w,
    symmetric_pvalue ttest_ind ->
    identify_significant_cpg_sites ttest_ind group_field group1 group2
                                   p_value_threshold w
    = identify_significant_cpg_sites ttest_ind group_field group2 group1
                                     p_value_threshold w.
Proof.
  intros ttest_ind group_field group1 group2 threshold w Hsym.
  rewrite !identify_significant_cpg_sites_total. f_equal.
  destruct (group_samples (metadata w) group_field group1) as [s1|e1] eqn:E1;
  destruct (group_samples (metadata w) group_field group2) as [s2|e2] eqn:E2;
    simpl.
  - rewrite !significant_loop_total.
    destruct (rows (methylation_data w)) as [|r rs]; [reflexivity|].
    rewrite andb_comm.
    destruct (known_labels _ s2 && known_labels _ s1); [|reflexivity].
    f_equal. f_equal. f_equal. apply filter_ext. intros r0.
    unfold significant. now rewrite Hsym.
  - reflexivity.
  - reflexivity.
  - rewrite (group_samples_raise _ _ _ group2 _ E1) in E2. congruence.
Qed.

Lemma small_sample_ttest_symmetric : symmetric_pvalue small_sample_ttest.
Proof.
  intros a b. unfold small_sample_ttest.
  destruct a as [|x [|x' a]]; destruct b as [|y [|y' b]]; try reflexivity.
  destruct (Qeq_bool (Qsum (x :: x' :: a) / count (x :: x' :: a))
                     (Qsum (y :: y' :: b) / count (y :: y' :: b))) eqn:E.
  - apply Qeq_bool_iff in E. symmetry in E. apply Qeq_bool_iff in E.
    now rewrite E.
  - destruct (Qeq_bool (Qsum (y :: y' :: b) / count (y :: y' :: b))
                       (Qsum (x :: x' :: a) / count (x :: x' :: a))) eqn:E';
      [|reflexivity].
    apply Qeq_bool_iff in E'. symmetry in E'. apply Qeq_bool_iff in E'.
    congruence.
Qed.

Lemma identify_significant_cpg_sites_symmetric_witness :
  identify_significant_cpg_sites small_sample_ttest
      "Disease State" "Control" "COVID" (Some 0.05) loaded
  = identify_significant_cpg_sites small_sample_ttest
      "Disease State" "COVID" "Control" (Some 0.05) loaded.
Proof.
  apply (identify_significant_cpg_sites_symmetric small_sample_ttest
           "Disease State" "Control" "COVID" (Some 0.05) loaded).
  exact small_sample_ttest_symmetric.
Defined.

(** X12. [identify_significant_cpg_sites] is monotone in its threshold:
    for [t1 <= t2], when the call with [t1] returns a list, the call with
    [t2] returns a list of which the first is an order-preserving
    sub-list. *)
Theorem identify_significant_cpg_sites_monotone :
  forall ttest_ind group_field group1 group2 t1 t2 w l1 w1,
    fle t1 t2 = true ->
    identify_significant_cpg_sites ttest_ind group_field group1 group2 t1 w
      = (Ok l1, w1) ->
    exists l2,
      identify_significant_cpg_sites ttest_ind group_field group1 group2 t2 w
        = (Ok l2, w) /\
      subseq l1 l2.
Proof.
  intros ttest_ind group_field group1 group2 t1 t2 w l1 w1 Hle.
  rewrite !identify_significant_cpg_sites_total.
  destruct (group_samples (metadata w) group_field group1) as [s1|e1];
    [|discriminate].
  destruct (group_samples (metadata w) group_field group2) as [s2|e2];
    [|discriminate].
  simpl. rewrite !significant_loop_total.
  destruct (rows (methylation_data w)) as [|r rs].
  - intros H. injection H as <- _. exists []. split; [reflexivity | constructor].
  - destruct (known_labels _ s1 && known_labels _ s2); [|discriminate].
    intros H. injection H as <- _. eexists. split; [reflexivity|].
    refine (subseq_filter_imp _ _ cpgSite
              (significant ttest_ind _ s1 s2 t1)
              (significant ttest_ind _ s1 s2 t2) (r :: rs) _).
    intros r0 _ H0. unfold significant in *. eapply flt_fle_trans; eassumption.
Qed.

Lemma identify_significant_cpg_sites_monotone_witness :
  exists l2,
    identify_significant_cpg_sites small_sample_ttest
        "Disease State" "Control" "COVID" (Some 0.5) loaded = (Ok l2, loaded) /\
    subseq [Some "cg_diff"%string] l2.
Proof.
  apply (identify_significant_cpg_sites_monotone small_sample_ttest
           "Disease State" "Control" "COVID" (Some 0.05) (Some 0.5) loaded
           [Some "cg_diff"%string] loaded); reflexivity.
Defined.

(** X13. On every path [identify_significant_cpg_sites] leaves the whole
    world as it was, figures included; and a returned list is an
    order-preserving sub-list of the identifier column. *)
Theorem identify_significant_cpg_sites_sublist :
  forall ttest_ind group_field group1 group2 p_value_threshold w,
    snd (identify_significant_cpg_sites ttest_ind group_field group1 group2
                                        p_value_threshold w) = w /\
    forall sites,
      fst (identify_significant_cpg_sites ttest_ind group_field group1 group2
                                          p_value_threshold w) = Ok sites ->
      subseq sites (map cpgSite (rows (methylation_data w))).
Proof.
  intros ttest_ind group_field group1 group2 threshold w.
  rewrite identify_significant_cpg_sites_total. split; [reflexivity|].
  simpl fst. intros sites.
  destruct (group_samples (metadata w) group_field group1) as [s1|e1];
    [|discriminate].
  destruct (group_samples (metadata w) group_field group2) as [s2|e2];
    [|discriminate].
  simpl. rewrite significant_loop_total.
  destruct (rows (methylation_data w)) as [|r rs].
  - intros H. injection H as <-. constructor.
  - destruct (known_labels _ s1 && known_labels _ s2); [|discriminate].
    intros H. injection H as <-.
    exact (subseq_map_filter _ _ cpgSite (significant ttest_ind _ s1 s2 threshold)
                             (r :: rs)).
Qed.

Lemma identify_significant_cpg_sites_sublist_witness :
  subseq [Some "cg_diff"%string] (map cpgSite (rows (methylation_data loaded))).
Proof.
  apply (proj2 (identify_significant_cpg_sites_sublist small_sample_ttest
                  "Disease State" "Control" "COVID" (Some 0.05) loaded)).
  reflexivity.
Defined.

(** ** Group selection *)

Lemma NoDup_map_same : forall A B (f : A -> B) (l : list A) (a b : A),
  NoDup (map f l) -> In a l -> In b l -> f a = f b -> a = b.
Proof.
  induction l as [|x l IH]; simpl; intros a b Hnd Ha Hb Hf; [contradiction|].
  inversion Hnd as [|y ys Hnotin Hnd']; subst.
  destruct Ha as [<-|Ha]; destruct Hb as [<-|Hb].
  - reflexivity.
  - exfalso. apply Hnotin. rewrite Hf. now apply in_map.
  - exfalso. apply Hnotin. rewrite <- Hf. now apply in_map.
  - now apply IH.
Qed.

Lemma group_samples_filter : forall md group_field value s,
  group_samples md group_field value = Ok s ->
  exists p : string -> MetaRow -> bool,
    (forall v v' r, p v r = true -> p v' r = true -> v = v') /\
    forall v, group_samples md group_field v
              = Ok (map SampleID (filter (p v) (mrows md))).
Proof.
  intros md group_field value s. unfold group_samples, column_equals.
  destruct (String.eqb group_field "SampleID").
  - intros _. exists (fun v r => String.eqb (SampleID r) v). split.
    + intros v v' r H H'. apply String.eqb_eq in H, H'. congruence.
    + intros v. simpl. now rewrite mask_select_map.
  - destruct (String.eqb group_field "Age").
    + intros _. exists (fun _ _ => false). split; [discriminate|].
      intros v. simpl. now rewrite mask_select_map.
    + destruct (index_of group_field (fields md)) as [j|]; [|discriminate].
      intros _.
      exists (fun v r => match nth j (categories r) None with
                         | Some c => String.eqb c v
                         | None => false
                         end). split.
      * intros v v' r H H'. destruct (nth j (categories r) None); [|discriminate].
        apply String.eqb_eq in H, H'. congruence.
      * intros v. simpl. now rewrite mask_select_map.
Qed.

(** X14. With unique [SampleID]s in the metadata, two different category
    values select disjoint groups of samples. *)
Theorem group_samples_disjoint : forall md group_field group1 group2 s1 s2,
  NoDup (map SampleID (mrows md)) ->
  group1 <> group2 ->
  group_samples md group_field group1 = Ok s1 ->
  group_samples md group_field group2 = Ok s2 ->
  forall sample, In sample s1 -> ~ In sample s2.
Proof.
  intros md group_field group1 group2 s1 s2 Hnd Hneq E1 E2 sample H1 H2.
  destruct (group_samples_filter _ _ _ _ E1) as (p & Hp & Hsel).
  rewrite Hsel in E1, E2. injection E1 as <-. injection E2 as <-.
  apply in_map_iff in H1. destruct H1 as (r1 & Hid1 & Hr1).
  apply in_map_iff in H2. destruct H2 as (r2 & Hid2 & Hr2).
  apply filter_In in Hr1, Hr2. destruct Hr1 as [Hin1 Hp1], Hr2 as [Hin2 Hp2].
  assert (r1 = r2) by (apply (NoDup_map_same _ _ SampleID (mrows md)); congruence).
  subst r2. apply Hneq. exact (Hp _ _ _ Hp1 Hp2).
Qed.

Lemma group_samples_disjoint_witness : ~ In "S1"%string ["S3"; "S4"]%string.
Proof.
  apply (group_samples_disjoint four_samples "Disease State" "Control" "COVID"
           ["S1"; "S2"]%string ["S3"; "S4"]%string).
  - simpl. repeat constructor; simpl; intuition discriminate.
  - discriminate.
  - reflexivity.
  - reflexivity.
  - left. reflexivity.
Defined.

(** ** The plotting methods *)

Lemma no_sample_row : forall (l : list MetaRow) sample,
  ~ In sample (map SampleID l) ->
  filter (fun r => String.eqb (SampleID r) sample) l = [].
Proof.
  induction l as [|x l IH]; simpl; intros sample Hnotin; [reflexivity|].
  destruct (String.eqb (SampleID x) sample) eqn:E.
  - apply String.eqb_eq in E. exfalso. apply Hnotin. now left.
  - apply IH. intros H. apply Hnotin. now right.
Qed.

Lemma unique_sample_row : forall (l : list MetaRow) sample,
  NoDup (map SampleID l) -> In sample (map SampleID l) ->
  exists r,
    filter (fun r => String.eqb (SampleID r) sample) l = [r] /\
    find (fun r => String.eqb (SampleID r) sample) l = Some r.
Proof.
  induction l as [|x l IH]; simpl; intros sample Hnd Hin; [contradiction|].
  inversion Hnd as [|y ys Hnotin Hnd']; subst.
  destruct (String.eqb (SampleID x) sample) eqn:E.
  - apply String.eqb_eq in E. exists x. split; [|reflexivity]. f_equal.
    apply no_sample_row. now rewrite <- E.
  - destruct Hin as [Hin|Hin].
    + apply String.eqb_neq in E. contradiction.
    + now apply IH.
Qed.

Lemma merge_with_metadata_aligned : forall md cols levels,
  List.length levels = List.length cols ->
  NoDup (map SampleID (mrows md)) ->
  incl cols (map SampleID (mrows md)) ->
  map fst (merge_with_metadata cols levels md) = map (age_of md) cols /\
  map snd (merge_with_metadata cols levels md) = levels.
Proof.
  intros md. unfold merge_with_metadata.
  induction cols as [|c cols IH]; intros [|v levels] Hlen Hnd Hincl;
    simpl in Hlen; try discriminate; [split; reflexivity|].
  simpl. rewrite !map_app.
  destruct (unique_sample_row (mrows md) c Hnd (Hincl c (or_introl eq_refl)))
    as (r & Hfilter & Hfind).
  rewrite Hfilter. simpl.
  destruct (IH levels) as [IHa IHl].
  - now injection Hlen.
  - exact Hnd.
  - intros x Hx. apply Hincl. now right.
  - assert (Hage : age_of md c = Age r) by (unfold age_of; now rewrite Hfind).
    rewrite IHa, IHl, Hage. split; reflexivity.
Qed.

(** X15. With unique [SampleID]s that cover the sample columns, a probe
    carried by exactly one (rectangular) row and whose name clashes with
    no column label, the plotting methods work on one point per sample
    column, in column order: the age recorded for the sample and the
    row's cell for it. *)
Theorem probe_against_age_aligned : forall m md cpg_site r,
  filter (carries cpg_site) (rows m) = [r] ->
  cpg_site <> "index"%string ->
  ~ In cpg_site ("SampleID" :: "Age" :: fields md)%string ->
  List.length (cells r) = List.length (sample_columns m) ->
  NoDup (map SampleID (mrows md)) ->
  incl (sample_columns m) (map SampleID (mrows md)) ->
  probe_against_age m md cpg_site
  = Ok (map (age_of md) (sample_columns m), cells r).
Proof.
  intros m md cpg_site r Hrow Hindex Hclash Hlen Hnd Hincl.
  unfold probe_against_age. fold (carries cpg_site). rewrite Hrow.
  apply String.eqb_neq in Hindex. rewrite Hindex.
  replace (existsb (String.eqb cpg_site) ("SampleID" :: "Age" :: fields md)%string)
    with false.
  - destruct (merge_with_metadata_aligned md (sample_columns m) (cells r)
                Hlen Hnd Hincl) as [Ha Hl].
    cbv zeta. now rewrite Ha, Hl.
  - symmetry. destruct (existsb _ _) eqn:E; [|reflexivity].
    apply existsb_exists in E. destruct E as (x & Hx & Heq).
    apply String.eqb_eq in Heq. subst x. contradiction.
Qed.

Lemma probe_against_age_aligned_witness :
  probe_against_age three_probes four_samples "cg_diff"
  = Ok ([Some 30; Some 40; Some 50; Some 60],
        [Some 0.1; Some 0.1; Some 0.9; Some 0.9]).
Proof.
  apply (probe_against_age_aligned three_probes four_samples "cg_diff"
           (mkRow (Some "cg_diff"%string) [Some 0.1; Some 0.1; Some 0.9; Some 0.9])).
  - reflexivity.
  - discriminate.
  - simpl. intros [H|[H|[H|[]]]]; discriminate H.
  - reflexivity.
  - simpl. repeat constructor; simpl; intuition discriminate.
  - intros x Hx. exact Hx.
Defined.

(** X16. [plot_cpg_against_age] only adds figures, after those already
    shown: two when it returns (the linear fit, then the degree-2 fit,
    over the same scatter), at most one when it raises. *)
Theorem plot_cpg_against_age_figures : forall fit cpg_site w,
  exists new,
    figures (snd (plot_cpg_against_age fit cpg_site w)) = figures w ++ new /\
    (forall e, fst (plot_cpg_against_age fit cpg_site w) = Raise e ->
               (List.length new <= 1)%nat) /\
    (fst (plot_cpg_against_age fit cpg_site w) = Ok tt ->
       map fit_label new = ["Linear Fit"; "Polynomial Fit (Degree 2)"]%string /\
       exists points, map scatter new = [points; points]).
Proof.
  intros fit cpg_site w.
  unfold plot_cpg_against_age, bind, get_methylation_data, get_metadata, lift, plt_show.
  destruct (probe_against_age (methylation_data w) (metadata w) cpg_site)
    as [[ages levels]|e0]; simpl.
  2: { exists []. rewrite app_nil_r. split; [reflexivity|].
       split; [intros; simpl; lia | discriminate]. }
  destruct (fit (map (fun a => [a]) ages) levels) as [pred1|e1]; simpl.
  2: { exists []. rewrite app_nil_r. split; [reflexivity|].
       split; [intros; simpl; lia | discriminate]. }
  destruct (PolynomialFeatures_fit_transform ages) as [ages_poly|e2]; simpl.
  2: { eexists [_]. split; [reflexivity|].
       split; [intros; simpl; lia | discriminate]. }
  destruct (fit ages_poly levels) as [pred2|e3]; simpl.
  2: { eexists [_]. split; [reflexivity|].
       split; [intros; simpl; lia | discriminate]. }
  eexists [_; _]. rewrite <- app_assoc. split; [reflexivity|].
  split; [discriminate|]. intros _. split; [reflexivity|].
  eexists. reflexivity.
Qed.

Lemma plot_cpg_against_age_figures_witness :
  exists new,
    figures (snd (plot_cpg_against_age interpolating_fit "cg_diff" loaded))
      = figures loaded ++ new /\
    map fit_label new = ["Linear Fit"; "Polynomial Fit (Degree 2)"]%string.
Proof.
  destruct (plot_cpg_against_age_figures interpolating_fit "cg_diff" loaded)
    as (new & Hfig & _ & Hok).
  exists new. split; [exact Hfig|]. apply Hok. reflexivity.
Defined.

(** ** [visualize_correlation_with_age] *)

Lemma dict_set_keys : forall V (d : list (string * V)) k v k',
  In k' (map fst (dict_set d k v)) <-> k' = k \/ In k' (map fst d).
Proof.
  induction d as [|[k0 v0] d IH]; intros k v k'; simpl.
  - split; [intros [H|[]]; now left | intros [H|[]]; now left].
  - destruct (String.eqb k k0) eqn:E; simpl.
    + apply String.eqb_eq in E. subst k0. intuition congruence.
    + rewrite IH. intuition congruence.
Qed.

Lemma dict_set_NoDup : forall V (d : list (string * V)) k v,
  NoDup (map fst d) -> NoDup (map fst (dict_set d k v)).
Proof.
  induction d as [|[k0 v0] d IH]; intros k v Hnd; simpl.
  - constructor; [intros [] | constructor].
  - inversion Hnd as [|x xs Hnotin Hnd']; subst.
    destruct (String.eqb k k0) eqn:E; simpl.
    + apply String.eqb_eq in E. subst k0. now constructor.
    + constructor; [|now apply IH].
      rewrite dict_set_keys. intros [H|H]; [|contradiction].
      subst k0. rewrite String.eqb_refl in E. discriminate.
Qed.

Lemma dict_set_In : forall V (d : list (string * V)) k v k' v',
  In (k', v') (dict_set d k v) -> (k' = k /\ v' = v) \/ In (k', v') d.
Proof.
  induction d as [|[k0 v0] d IH]; intros k v k' v'; simpl.
  - intros [H|[]]. left. now injection H as <- <-.
  - destruct (String.eqb k k0); simpl.
    + intros [H|H]; [left; now injection H as <- <- | right; now right].
    + intros [H|H]; [right; now left|].
      destruct (IH _ _ _ _ H) as [H'|H']; [now left | right; now right].
Qed.

Section Correlations.

Variable pearsonr : list float -> list float -> result float.
Variable format_2f : float -> string.

(** One turn of the loop. *)
Lemma correlation_loop_cons : forall cpg_site rest correlations w,
  correlation_loop pearsonr format_2f (cpg_site :: rest) correlations w =
    match probe_against_age (methylation_data w) (metadata w) cpg_site with
    | Raise e => (Raise e, w)
    | Ok data =>
        match pearsonr (fst data) (snd data) with
        | Raise e => (Raise e, w)
        | Ok corr =>
            correlation_loop pearsonr format_2f rest
              (dict_set correlations cpg_site corr)
              (mkWorld (methylation_data w) (metadata w)
                       (figures w ++ [correlation_figure format_2f cpg_site
                                        (fst data) (snd data) corr]))
        end
    end.
Proof.
  intros cpg_site rest correlations w. simpl.
  unfold bind, get_methylation_data, get_metadata, lift, plt_show.
  destruct (probe_against_age _ _ cpg_site) as [data|e]; [|reflexivity].
  destruct (pearsonr (fst data) (snd data)); reflexivity.
Qed.

Lemma correlation_loop_absent : forall cpg_site cpg_sites correlations w,
  In cpg_site cpg_sites ->
  probe_absent (methylation_data w) cpg_site ->
  exists e, fst (correlation_loop pearsonr format_2f cpg_sites correlations w)
            = Raise e.
Proof.
  intros cpg_site cpg_sites.
  induction cpg_sites as [|c rest IH]; intros correlations w Hin Habs;
    [contradiction|].
  rewrite correlation_loop_cons.
  destruct (probe_against_age (methylation_data w) (metadata w) c)
    as [data|e] eqn:E; [|now exists e].
  destruct (pearsonr (fst data) (snd data)) as [corr|e]; [|now exists e].
  destruct Hin as [->|Hin].
  - rewrite (probe_against_age_absent _ (metadata w) _ Habs) in E. discriminate.
  - apply IH; assumption.
Qed.

Lemma correlation_loop_success : forall cpg_sites correlations w d w',
  correlation_loop pearsonr format_2f cpg_sites correlations w = (Ok d, w') ->
  NoDup (map fst correlations) ->
  NoDup (map fst d) /\
  (forall k, In k (map fst d) <-> In k (map fst correlations) \/ In k cpg_sites) /\
  (exists new, figures w' = figures w ++ new /\
               List.length new = List.length cpg_sites) /\
  tables w' = tables w /\
  (forall k v, In (k, v) d ->
     In (k, v) correlations \/
     exists ages levels,
       probe_against_age (methylation_data w) (metadata w) k = Ok (ages, levels) /\
       pearsonr ages levels = Ok v).
Proof.
  induction cpg_sites as [|c rest IH]; intros correlations w d w' Hrun Hnd.
  - simpl in Hrun. unfold ret in Hrun. injection Hrun as <- <-.
    split; [exact Hnd|]. split; [intros k; simpl; tauto|].
    split; [exists []; now rewrite app_nil_r|].
    split; [reflexivity|]. intros k v H. now left.
  - rewrite correlation_loop_cons in Hrun.
    destruct (probe_against_age (methylation_data w) (metadata w) c)
      as [[ages levels]|e] eqn:E; [|discriminate].
    simpl fst in Hrun. simpl snd in Hrun.
    destruct (pearsonr ages levels) as [corr|e] eqn:Ep; [|discriminate].
    destruct (IH _ _ _ _ Hrun (dict_set_NoDup _ _ c corr Hnd))
      as (Hd & Hkeys & (new & Hfig & Hlen) & Htab & Hval).
    simpl in Hfig, Htab, Hval.
    split; [exact Hd|]. split; [|split; [|split]].
    + intros k. rewrite Hkeys, dict_set_keys. simpl. intuition congruence.
    + eexists (_ :: new). rewrite Hfig, <- app_assoc. split; [reflexivity|].
      simpl. now rewrite Hlen.
    + exact Htab.
    + intros k v Hin. destruct (Hval k v Hin) as [H|H]; [|now right].
      destruct (dict_set_In _ _ _ _ _ _ H) as [[-> ->]|H']; [|now left].
      right. now exists ages, levels.
Qed.

End Correlations.

(** X17. When one of the requested probes is carried by no row of the
    matrix, [visualize_correlation_with_age] raises: the call is aborted,
    no dict is returned for the other probes. *)
Theorem visualize_correlation_with_age_absent_probe :
  forall pearsonr format_2f cpg_sites cpg_site w,
    In cpg_site cpg_sites ->
    probe_absent (methylation_data w) cpg_site ->
    exists e,
      fst (visualize_correlation_with_age pearsonr format_2f cpg_sites w) = Raise e.
Proof.
  intros pearsonr format_2f cpg_sites cpg_site w Hin Habs.
  unfold visualize_correlation_with_age.
  now apply (correlation_loop_absent pearsonr format_2f cpg_site).
Qed.

Lemma visualize_correlation_with_age_absent_probe_witness :
  exists e,
    fst (visualize_correlation_with_age perfect_pearsonr plain_format
           ["cg_diff"; "cg_missing"]%string loaded) = Raise e.
Proof.
  apply (visualize_correlation_with_age_absent_probe perfect_pearsonr plain_format
           ["cg_diff"; "cg_missing"]%string "cg_missing"%string loaded).
  - simpl. tauto.
  - intros r Hr. simpl in Hr. destruct Hr as [<-|[<-|[<-|[]]]]; discriminate.
Defined.

(** X18. When [visualize_correlation_with_age] returns, the dict has one
    entry per distinct requested probe and no other key, each value is
    the coefficient [pearsonr] gives for that probe's joined data, one
    figure was shown per requested probe (repeats included) after the
    earlier ones, and both tables are unchanged. *)
Theorem visualize_correlation_with_age_returns :
  forall pearsonr format_2f cpg_sites w correlations w',
    visualize_correlation_with_age pearsonr format_2f cpg_sites w
      = (Ok correlations, w') ->
    NoDup (map fst correlations) /\
    (forall k, In k (map fst correlations) <-> In k cpg_sites) /\
    (forall k v, In (k, v) correlations ->
       exists ages levels,
         probe_against_age (methylation_data w) (metadata w) k = Ok (ages, levels) /\
         pearsonr ages levels = Ok v) /\
    (exists new, figures w' = figures w ++ new /\
                 List.length new = List.length cpg_sites) /\
    tables w' = tables w.
Proof.
  intros pearsonr format_2f cpg_sites w correlations w' Hrun.
  unfold visualize_correlation_with_age in Hrun.
  destruct (correlation_loop_success pearsonr format_2f cpg_sites [] w
              correlations w' Hrun (NoDup_nil _))
    as (Hd & Hkeys & Hfig & Htab & Hval).
  split; [exact Hd|]. split; [|split; [|split]].
  - intros k. rewrite Hkeys. simpl. tauto.
  - intros k v Hin. destruct (Hval k v Hin) as [[]|H]. exact H.
  - exact Hfig.
  - exact Htab.
Qed.

Lemma visualize_correlation_with_age_returns_witness :
  NoDup (map fst [("cg_diff"%string, Some 1)]) /\
  (forall k, In k (map fst [("cg_diff"%string, Some 1 : float)])
             <-> In k ["cg_diff"; "cg_diff"]%string).
Proof.
  destruct (visualize_correlation_with_age_returns perfect_pearsonr plain_format
              ["cg_diff"; "cg_diff"]%string loaded
              [("cg_diff"%string, Some 1)]
              (snd (visualize_correlation_with_age perfect_pearsonr plain_format
                      ["cg_diff"; "cg_diff"]%string loaded)))
    as (Hd & Hkeys & _).
  - reflexivity.
  - split; [exact Hd | exact Hkeys].
Defined.

(** ** Preprocessing before the queries *)






